(** * MongoDB source helpers: document sanitisation, query filters, chunking

    A shallow embedding of [sources/mongodb/helpers.py]: the class
    [CollectionLoader] (its constructor, [make_query], [clean_document],
    [load_documents]) and the generator [collection_documents]. *)

From Stdlib Require Import String Ascii ZArith NArith Bool Arith Lia QArith.
From Stdlib Require Import Strings.Byte Floats.SpecFloat List.
From Equations Require Import Equations.
From Equations.Prop Require Import Logic.
Import ListNotations.

Set Warnings "-abstract-large-number".

Local Open Scope string_scope.
Local Open Scope list_scope.
Local Open Scope nat_scope.

(** ** Python values that occur in a MongoDB document *)

(** The number carried by a BSON [Decimal128] and by a Python
    [decimal.Decimal]: sign, integer coefficient and decimal exponent, or
    one of the special values. *)
Inductive decnum : Type :=
| DecFinite (negative : bool) (coefficient : N) (exponent : Z)
| DecInfinity (negative : bool)
| DecNaN.

(** [bson.decimal128.Decimal128]. *)
Inductive Decimal128 : Type := mkDecimal128 (num : decnum).

(** [decimal.Decimal], what [Decimal128.to_decimal()] returns. *)
Inductive Decimal : Type := mkDecimal (num : decnum).

(** [bson.objectid.ObjectId]: the 12 raw bytes of the identifier. *)
Inductive ObjectId : Type := mkObjectId (binary : list byte).

(** An object of a class this module knows nothing about: its class name,
    its [repr] and what [bool()] answers on it. *)
Record opaque : Type := mkOpaque {
  opaque_class : string;
  opaque_repr : string;
  opaque_truth : bool
}.

Unset Elimination Schemes.
Inductive value : Type :=
| VNone
| VBool (b : bool)
| VInt (z : Z)
| VFloat (f : spec_float)
| VStr (s : string)
| VDecimal (d : Decimal)
| VOther (o : opaque)
| VDict (items : list (string * value))
| VList (elems : list value)
| VDecimal128 (d : Decimal128)
| VObjectId (o : ObjectId).
Set Elimination Schemes.

(** Induction over nested documents: the hypotheses for a mapping and for a
    sequence speak about the members. *)
Section value_induction.
Variable P : value -> Prop.
Hypothesis HNone : P VNone.
Hypothesis HBool : forall b, P (VBool b).
Hypothesis HInt : forall z, P (VInt z).
Hypothesis HFloat : forall f, P (VFloat f).
Hypothesis HStr : forall s, P (VStr s).
Hypothesis HDecimal : forall d, P (VDecimal d).
Hypothesis HOther : forall o, P (VOther o).
Hypothesis HDict :
  forall items, (forall k v, In (k, v) items -> P v) -> P (VDict items).
Hypothesis HList :
  forall elems, (forall v, In v elems -> P v) -> P (VList elems).
Hypothesis HDecimal128 : forall d, P (VDecimal128 d).
Hypothesis HObjectId : forall o, P (VObjectId o).

Fixpoint value_ind (v : value) : P v :=
  match v with
  | VNone => HNone
  | VBool b => HBool b
  | VInt z => HInt z
  | VFloat f => HFloat f
  | VStr s => HStr s
  | VDecimal d => HDecimal d
  | VOther o => HOther o
  | VDict items =>
      HDict items
        ((fix members (l : list (string * value)) :
            forall k w, In (k, w) l -> P w :=
            match l with
            | [] => fun _ _ (H : In _ []) => match H with end
            | (k0, w0) :: r => fun k w (H : In (k, w) ((k0, w0) :: r)) =>
                match H with
                | or_introl E =>
                    eq_ind w0 P (value_ind w0) w (f_equal snd E)
                | or_intror H' => members r k w H'
                end
            end) items)
  | VList elems =>
      HList elems
        ((fix members (l : list value) : forall w, In w l -> P w :=
            match l with
            | [] => fun _ (H : In _ []) => match H with end
            | w0 :: r => fun w (H : In w (w0 :: r)) =>
                match H with
                | or_introl E => eq_ind w0 P (value_ind w0) w E
                | or_intror H' => members r w H'
                end
            end) elems)
  | VDecimal128 d => HDecimal128 d
  | VObjectId o => HObjectId o
  end.
End value_induction.

(** ** External conversions *)

(** Modelled from the spec: [Decimal128.to_decimal()] of the bson package,
    which is not part of this repository.  The spec has it convert "to an
    exact decimal number representation (no precision loss, no float
    rounding)": sign, coefficient and exponent are carried over as they
    are. *)
Definition to_decimal (d : Decimal128) : Decimal :=
  match d with mkDecimal128 n => mkDecimal n end.

Definition hex_digit (n : N) : ascii :=
  match String.get (N.to_nat n) "0123456789abcdef" with
  | Some c => c
  | None => "0"%char
  end.

Fixpoint hexlify (bs : list byte) : string :=
  match bs with
  | [] => EmptyString
  | b :: rest =>
      let n := Byte.to_N b in
      String (hex_digit (n / 16)) (String (hex_digit (n mod 16)) (hexlify rest))
  end.

(** Modelled from the spec: [str()] of an [ObjectId] (bson package), "its
    canonical string text representation": the lower-case hexadecimal
    digits of the 12 bytes. *)
Definition ObjectId_str (o : ObjectId) : string :=
  match o with mkObjectId bs => hexlify bs end.

(** ** Python built-ins used by the module *)

(** [bool(v)]: what [not v] tests. *)
Definition truthy (v : value) : bool :=
  match v with
  | VNone => false
  | VBool b => b
  | VInt z => negb (Z.eqb z 0)
  | VFloat f => match f with S754_zero _ => false | _ => true end
  | VStr s => negb (String.eqb s "")
  | VDecimal (mkDecimal n) =>
      match n with DecFinite _ c _ => negb (N.eqb c 0) | _ => true end
  | VOther o => opaque_truth o
  | VDict items => match items with [] => false | _ => true end
  | VList elems => match elems with [] => false | _ => true end
  | VDecimal128 _ => true
  | VObjectId _ => true
  end.

Section dict.
Context {V : Type}.

(** [d[k] = v] on an insertion-ordered dict: an existing key keeps its
    place and takes the new value, a new key goes last. *)
Fixpoint dict_setitem (d : list (string * V)) (k : string) (v : V)
  : list (string * V) :=
  match d with
  | [] => [(k, v)]
  | (k', v') :: rest =>
      if String.eqb k' k then (k', v) :: rest
      else (k', v') :: dict_setitem rest k v
  end.

(** [d.get(k)]. *)
Fixpoint dict_get (d : list (string * V)) (k : string) : option V :=
  match d with
  | [] => None
  | (k', v') :: rest => if String.eqb k' k then Some v' else dict_get rest k
  end.

Definition dict_keys (d : list (string * V)) : list string := map fst d.
End dict.

(** The invariant of every Python dict: no key occurs twice. *)
Fixpoint distinct (keys : list string) : bool :=
  match keys with
  | [] => true
  | k :: rest => negb (existsb (String.eqb k) rest) && distinct rest
  end.

(** A well-formed value: every dict in it, at any depth, has distinct
    keys. *)
Fixpoint wf_value (v : value) : bool :=
  match v with
  | VDict items =>
      distinct (dict_keys items) && forallb (fun kv => wf_value (snd kv)) items
  | VList elems => forallb wf_value elems
  | _ => true
  end.

(** Whether a [Decimal128] or an [ObjectId] occurs in [v], at any depth. *)
Fixpoint has_special (v : value) : bool :=
  match v with
  | VDict items => existsb (fun kv => has_special (snd kv)) items
  | VList elems => existsb has_special elems
  | VDecimal128 _ => true
  | VObjectId _ => true
  | _ => false
  end.

(** The kinds the first test of the loop in [clean_document] lets through:
    [not isinstance(value, (dict, list, Decimal128, ObjectId))]. *)
Definition is_other_kind (v : value) : bool :=
  match v with
  | VDict _ | VList _ | VDecimal128 _ | VObjectId _ => false
  | _ => true
  end.

Definition is_dict (v : value) : bool :=
  match v with VDict _ => true | _ => false end.

(** [len(l)], a Python integer. *)
Definition len {A : Type} (l : list A) : Z := Z.of_nat (List.length l).

(** ** Collaborators *)

(** An attribute read on an object that lacks it raises. *)
Inductive result (A : Type) : Type :=
| Ok (a : A)
| AttributeError (attr : string).
Arguments Ok {A} a.
Arguments AttributeError {A} attr.

Definition bind {A B : Type} (r : result A) (k : A -> result B) : result B :=
  match r with
  | Ok a => k a
  | AttributeError attr => AttributeError attr
  end.

Notation "x <- r ;; k" := (bind r (fun x => k))
  (at level 61, r at next level, right associativity).

(** The function object held by [incremental.last_value_func], compared
    with [is] against the built-ins [max] and [min]. *)
Inductive py_function : Type :=
| builtin_max
| builtin_min
| other_function (name : string).

(** [dlt.sources.incremental]: the attributes the loader reads.  Such an
    object is always truthy; an absent cursor is Python's [None]. *)
Module Incremental.
Record t : Type := mk {
  cursor_path : string;
  last_value : value;
  last_value_func : py_function
}.
End Incremental.

(** A pymongo cursor: the documents it will return, in the store's
    iteration order. *)
Definition TCursor : Type := list value.

(** A pymongo collection: [find] maps a filter document to a cursor. *)
Record TCollection : Type := mkCollection {
  find : value -> TCursor
}.

Inductive TMongoClient : Type := mkClient (connection_url : string).

(** ** class CollectionLoader *)

Module CollectionLoader.

(** The instance attributes; [None] in [cursor_field] or [cursor_column]
    means the attribute was never assigned. *)
Record t : Type := mk {
  client : TMongoClient;
  collection : TCollection;
  incremental : option Incremental.t;
  cursor_field : option string;
  cursor_column : option value;
  last_value : value
}.

(** [clean_document]: "Clean document to be json serializable". *)
Fixpoint clean_document (document : value) : value :=
  match document with
  | VDict items =>
      VDict
        (fold_left
           (fun output kv =>
              let '(key, value) := kv in
              match value with
              | VNone | VBool _ | VInt _ | VFloat _ | VStr _
              | VDecimal _ | VOther _ =>
                  dict_setitem output key value
              | VDict _ =>
                  dict_setitem output key (clean_document value)
              | VList elems =>
                  dict_setitem output key (VList (map clean_document elems))
              | VDecimal128 d =>
                  dict_setitem output key (VDecimal (to_decimal d))
              | VObjectId o =>
                  dict_setitem output key (VStr (ObjectId_str o))
              end)
           items [])
  | _ => document
  end.

(** What the loop body of [clean_document] stores under a key. *)
Definition clean_value (v : value) : value :=
  match v with
  | VDict _ => clean_document v
  | VList elems => VList (map clean_document elems)
  | VDecimal128 d => VDecimal (to_decimal d)
  | VObjectId o => VStr (ObjectId_str o)
  | _ => v
  end.

(** [__init__]: with a cursor it sets [cursor_field] and [last_value];
    without one it sets [cursor_column] (sic) and [last_value], so
    [cursor_field] does not exist on such a loader. *)
Definition __init__ (client : TMongoClient) (collection : TCollection)
    (incremental : option Incremental.t) : t :=
  match incremental with
  | Some inc =>
      {| client := client;
         collection := collection;
         incremental := incremental;
         cursor_field := Some (Incremental.cursor_path inc);
         cursor_column := None;
         last_value := Incremental.last_value inc |}
  | None =>
      {| client := client;
         collection := collection;
         incremental := incremental;
         cursor_field := None;
         cursor_column := Some VNone;
         last_value := VNone |}
  end.

(** Reading [self.cursor_field]. *)
Definition get_cursor_field (self : t) : result string :=
  match cursor_field self with
  | Some f => Ok f
  | None => AttributeError "cursor_field"
  end.

(** The local [filter_op] that [make_query] builds. *)
Definition filter_op (self : t) : result value :=
  match incremental self with
  | None => Ok (VDict [])
  | Some inc =>
      if negb (truthy (last_value self)) then Ok (VDict [])
      else
        match Incremental.last_value_func inc with
        | builtin_max =>
            f <- get_cursor_field self;;
            Ok (VDict [(f, VDict [("$gte", last_value self)])])
        | builtin_min =>
            f <- get_cursor_field self;;
            Ok (VDict [(f, VDict [("$lt", last_value self)])])
        | other_function _ => Ok (VDict [])
        end
  end.

Definition make_query (self : t) : result TCursor :=
  filter_op <- filter_op self;;
  Ok (find (collection self) filter_op).

(** The generator [load_documents] holds the cursor it reads; one step
    takes the next document off it and yields it cleaned. *)
Definition load_documents (self : t) : result TCursor := make_query self.

Definition load_documents_next (g : TCursor) : option (value * TCursor) :=
  match g with
  | [] => None
  | document :: rest => Some (clean_document document, rest)
  end.

End CollectionLoader.

Definition CHUNK_SIZE : nat := 10000.

(** [list(islice(documents_load, n))]: up to [n] items pulled from the
    generator, and the generator as it is left. *)
Fixpoint islice (documents_load : TCursor) (n : nat) : list value * TCursor :=
  match n with
  | O => ([], documents_load)
  | S k =>
      match CollectionLoader.load_documents_next documents_load with
      | None => ([], documents_load)
      | Some (doc, g) =>
          let '(docs, g') := islice g k in (doc :: docs, g')
      end
  end.

Opaque CHUNK_SIZE.

(** The loop [while docs_slice := list(islice(documents_load, CHUNK_SIZE)):
    yield docs_slice]: the chunks it yields, in order. *)
Equations? yield_slices (documents_load : TCursor) : list (list value)
  by wf (length documents_load) lt :=
  yield_slices documents_load
    with inspect (islice documents_load CHUNK_SIZE) => {
    | exist _ ([], _) _ => [];
    | exist _ (d :: docs, rest) E => (d :: docs) :: yield_slices rest }.
Proof.
  assert (forall n g, snd (islice g n) = skipn n g) as Hrest.
  { induction n as [|k IH]; intros [|x g]; simpl; try reflexivity.
    specialize (IH g). destruct (islice g k). exact IH. }
  specialize (Hrest CHUNK_SIZE documents_load). rewrite E in Hrest.
  simpl in Hrest. subst rest. rewrite length_skipn.
  destruct documents_load as [|x g]; cbn [List.length];
    destruct CHUNK_SIZE; simpl in E; try discriminate; lia.
Qed.
Transparent CHUNK_SIZE.

Definition collection_documents (client : TMongoClient)
    (collection : TCollection) (incremental : option Incremental.t)
  : result (list (list value)) :=
  let loader := CollectionLoader.__init__ client collection incremental in
  documents_load <- CollectionLoader.load_documents loader;;
  Ok (yield_slices documents_load).

(** The loop [for key, value in items: output[key] = f(value)], started on
    a given [output]. *)
Definition store_all {V W : Type} (f : V -> W) (items : list (string * V))
    (output : list (string * W)) : list (string * W) :=
  fold_left (fun out kv => dict_setitem out (fst kv) (f (snd kv))) items output.

Definition map_values {V W : Type} (f : V -> W) (items : list (string * V))
  : list (string * W) :=
  map (fun kv => (fst kv, f (snd kv))) items.

(** ** The branches of [make_query] *)

(** The four branches of [make_query]. *)
Inductive branch : Type :=
| branch_select_all
| branch_max
| branch_min
| branch_custom.

(** When each branch fires and the filter it builds: the first one when
    there is no cursor or its watermark is falsy, the others by the
    cursor's [last_value_func]. *)
Inductive fires : option Incremental.t -> branch -> value -> Prop :=
| fires_no_cursor :
    fires None branch_select_all (VDict [])
| fires_falsy_watermark inc :
    truthy (Incremental.last_value inc) = false ->
    fires (Some inc) branch_select_all (VDict [])
| fires_max inc :
    truthy (Incremental.last_value inc) = true ->
    Incremental.last_value_func inc = builtin_max ->
    fires (Some inc) branch_max
      (VDict [(Incremental.cursor_path inc,
               VDict [("$gte", Incremental.last_value inc)])])
| fires_min inc :
    truthy (Incremental.last_value inc) = true ->
    Incremental.last_value_func inc = builtin_min ->
    fires (Some inc) branch_min
      (VDict [(Incremental.cursor_path inc,
               VDict [("$lt", Incremental.last_value inc)])])
| fires_custom inc name :
    truthy (Incremental.last_value inc) = true ->
    Incremental.last_value_func inc = other_function name ->
    fires (Some inc) branch_custom (VDict []).

(** The filter as the specification words it: the first branch is taken
    when no cursor is supplied or the cursor has no prior watermark, that
    is when its [last_value] is [None]. *)
Definition has_watermark (inc : Incremental.t) : bool :=
  match Incremental.last_value inc with
  | VNone => false
  | _ => true
  end.

Definition specified_filter (incremental : option Incremental.t) : value :=
  match incremental with
  | None => VDict []
  | Some inc =>
      if negb (has_watermark inc) then VDict []
      else
        match Incremental.last_value_func inc with
        | builtin_max =>
            VDict [(Incremental.cursor_path inc,
                    VDict [("$gte", Incremental.last_value inc)])]
        | builtin_min =>
            VDict [(Incremental.cursor_path inc,
                    VDict [("$lt", Incremental.last_value inc)])]
        | other_function _ => VDict []
        end
  end.

(** ** Sample data *)

Definition sample_oid : ObjectId :=
  mkObjectId [x50; x7f; x1f; x77; xbc; xf8; x6c; xd7; x99; x43; x90; x11].

Definition sample_price : Decimal128 :=
  mkDecimal128 (DecFinite false 1999 (-2)).

Definition sample_client : TMongoClient := mkClient "mongodb://localhost".

Definition refs_document : value :=
  VDict [("_id", VObjectId sample_oid);
         ("refs", VList [VObjectId sample_oid])].

Definition nested_list_document : value :=
  VDict [("rows", VList [VList [VDict [("owner", VObjectId sample_oid);
                                       ("price", VDecimal128 sample_price)]]])].

Definition plain_document : value :=
  VDict [("name", VStr "a");
         ("tags", VList [VStr "x"; VDict [("n", VInt 1)]]);
         ("meta", VDict [("ok", VBool true); ("score", VNone)])].

Definition decimal_rows_document : value :=
  VDict [("rows",
          VList [VList [VDict [("price", VDecimal128 sample_price)]]])].

Definition priced_document : value :=
  VDict [("sku", VStr "A-1"); ("price", VDecimal128 sample_price)].

Definition sample_opaque : value :=
  VOther (mkOpaque "bson.binary.Binary" "Binary(b'\x00', 0)" true).

Definition empty_collection : TCollection := mkCollection (fun _ => []).

(** A collection of 25000 documents. *)
Definition large_collection : TCollection :=
  mkCollection (fun _ => repeat refs_document 25000).

Definition zero_watermark : Incremental.t :=
  Incremental.mk "seq" (VInt 0) builtin_max.

(** ** Accessors used to state properties of cleaned documents *)

(** [d[k1][k2]...[kn]] through nested dicts; [None] when a key is missing or
    a value on the way is not a dict. *)
Fixpoint dict_path (v : value) (path : list string) : option value :=
  match path with
  | [] => Some v
  | k :: rest =>
      match v with
      | VDict items =>
          match dict_get items k with
          | Some w => dict_path w rest
          | None => None
          end
      | _ => None
      end
  end.

(** Whether some dict field holds an [ObjectId] or a [Decimal128] directly,
    looking into the dicts under keys and into the dicts that are elements
    of a list under a key. *)
Fixpoint field_holds_special (v : value) : bool :=
  match v with
  | VDict items =>
      existsb
        (fun kv =>
           match snd kv with
           | VDecimal128 _ | VObjectId _ => true
           | VDict _ => field_holds_special (snd kv)
           | VList elems => existsb field_holds_special elems
           | _ => false
           end)
        items
  | _ => false
  end.

(** The same test on one stored value. *)
Definition stored_special (w : value) : bool :=
  match w with
  | VDecimal128 _ | VObjectId _ => true
  | VDict _ => field_holds_special w
  | VList elems => existsb field_holds_special elems
  | _ => false
  end.

(** A loader on which [incremental] and [last_value] were assigned after it
    was built without a cursor. *)
Definition patched_loader : CollectionLoader.t :=
  CollectionLoader.mk sample_client empty_collection
    (Some (Incremental.mk "seq" (VInt 5) builtin_max))
    None (Some VNone) (VInt 5).

Definition nested_document : value :=
  VDict [("owner", VDict [("id", VObjectId sample_oid);
                          ("balance", VDecimal128 sample_price)]);
         ("items", VList [VDict [("ref", VObjectId sample_oid)]])].

Definition small_collection : TCollection :=
  mkCollection (fun _ => [refs_document; nested_document; plain_document]).

Definition even_collection : TCollection :=
  mkCollection (fun _ => repeat nested_document 20000).

(** * Properties *)

(** ** Insertion-ordered dicts *)

Lemma distinct_NoDup (keys : list string) :
  distinct keys = true <-> NoDup keys.
Proof.
  induction keys as [|k rest IH]; simpl.
  - split; [constructor | reflexivity].
  - rewrite andb_true_iff, negb_true_iff, IH. split.
    + intros [Hk Hr]. constructor; [|exact Hr].
      intros Hin. assert (existsb (String.eqb k) rest = true) as E.
      { apply existsb_exists. exists k. split; [exact Hin | apply String.eqb_refl]. }
      congruence.
    + intros H. inversion H as [|? ? Hk Hr]; subst. split; [|exact Hr].
      destruct (existsb (String.eqb k) rest) eqn:E; [|reflexivity].
      apply existsb_exists in E. destruct E as [x [Hin Hx]].
      apply String.eqb_eq in Hx. subst x. contradiction.
Qed.

Section dict_facts.
Context {V : Type}.
Implicit Types (d : list (string * V)) (k : string) (v : V).

Lemma dict_setitem_fresh d k v :
  ~ In k (dict_keys d) -> dict_setitem d k v = d ++ [(k, v)].
Proof.
  induction d as [|[k' v'] rest IH]; simpl; intros Hk; [reflexivity|].
  destruct (String.eqb_spec k' k) as [->|Hne].
  - exfalso. apply Hk. left. reflexivity.
  - rewrite IH; [reflexivity|]. intros Hin. apply Hk. right. exact Hin.
Qed.

Lemma dict_setitem_keys d k v :
  dict_keys (dict_setitem d k v) =
  if existsb (String.eqb k) (dict_keys d) then dict_keys d
  else dict_keys d ++ [k].
Proof.
  induction d as [|[k' v'] rest IH]; simpl; [reflexivity|].
  rewrite (String.eqb_sym k k').
  destruct (String.eqb_spec k' k) as [->|Hne]; simpl; [reflexivity|].
  rewrite IH. destruct (existsb (String.eqb k) (dict_keys rest)); reflexivity.
Qed.

Lemma dict_setitem_NoDup d k v :
  NoDup (dict_keys d) -> NoDup (dict_keys (dict_setitem d k v)).
Proof.
  intros Hd. rewrite dict_setitem_keys.
  destruct (existsb (String.eqb k) (dict_keys d)) eqn:E; [exact Hd|].
  apply NoDup_app; [exact Hd | repeat constructor; intros [] |].
  intros x Hx [Hkx|[]]. subst x.
  assert (existsb (String.eqb k) (dict_keys d) = true) as E'.
  { apply existsb_exists. exists k. split; [exact Hx | apply String.eqb_refl]. }
  congruence.
Qed.

Lemma dict_setitem_In d k v k' w :
  In (k', w) (dict_setitem d k v) -> In (k', w) d \/ (k' = k /\ w = v).
Proof.
  induction d as [|[k0 v0] rest IH]; simpl.
  - intros [E|[]]. injection E as <- <-. right. split; reflexivity.
  - destruct (String.eqb_spec k0 k) as [->|Hne]; simpl.
    + intros [E|Hin]; [injection E as <- <-; right; split; reflexivity|].
      left. right. exact Hin.
    + intros [E|Hin]; [left; left; exact E|].
      destruct (IH Hin) as [H|H]; [left; right; exact H | right; exact H].
Qed.

Lemma dict_get_In d k v :
  NoDup (dict_keys d) -> (dict_get d k = Some v <-> In (k, v) d).
Proof.
  induction d as [|[k0 v0] rest IH]; simpl; intros Hd.
  - split; [discriminate | intros []].
  - inversion Hd as [|? ? Hk Hr]; subst.
    destruct (String.eqb_spec k0 k) as [->|Hne].
    + split.
      * intros E. injection E as <-. left. reflexivity.
      * intros [E|Hin]; [injection E as <-; reflexivity|].
        exfalso. apply Hk. apply (in_map fst) in Hin. exact Hin.
    + rewrite (IH Hr). split; [intros H; right; exact H|].
      intros [E|Hin]; [injection E as E _; contradiction | exact Hin].
Qed.
End dict_facts.

Section store_all_facts.
Context {V W : Type} (f : V -> W).

Lemma dict_keys_map_values (items : list (string * V)) :
  dict_keys (map_values f items) = dict_keys items.
Proof.
  unfold dict_keys, map_values. rewrite map_map. reflexivity.
Qed.

Lemma store_all_fresh (items : list (string * V)) :
  forall output : list (string * W),
    NoDup (dict_keys output ++ dict_keys items) ->
    store_all f items output = output ++ map_values f items.
Proof.
  induction items as [|[k v] rest IH]; simpl; intros output Hnd.
  - rewrite app_nil_r. reflexivity.
  - unfold store_all in *. simpl.
    assert (~ In k (dict_keys output)) as Hk.
    { intros Hin. apply NoDup_remove_2 in Hnd. apply Hnd.
      apply in_or_app. left. exact Hin. }
    rewrite (dict_setitem_fresh _ _ _ Hk).
    rewrite IH.
    + rewrite <- app_assoc. reflexivity.
    + unfold dict_keys in *. rewrite map_app. simpl.
      rewrite <- app_assoc. simpl. exact Hnd.
Qed.

Lemma store_all_NoDup (items : list (string * V)) :
  forall output : list (string * W),
    NoDup (dict_keys output) ->
    NoDup (dict_keys (store_all f items output)).
Proof.
  induction items as [|[k v] rest IH]; simpl; intros output Hnd;
    [exact Hnd|].
  apply IH. apply dict_setitem_NoDup. exact Hnd.
Qed.

Lemma store_all_In (items : list (string * V)) :
  forall (output : list (string * W)) k w,
    In (k, w) (store_all f items output) ->
    In (k, w) output \/ exists v, In (k, v) items /\ w = f v.
Proof.
  induction items as [|[k0 v0] rest IH]; simpl; intros output k w Hin;
    [left; exact Hin|].
  destruct (IH _ _ _ Hin) as [H|[v [Hv ->]]].
  - destruct (dict_setitem_In _ _ _ _ _ H) as [H'|[-> ->]];
      [left; exact H'|].
    right. exists v0. split; [left; reflexivity | reflexivity].
  - right. exists v. split; [right; exact Hv | reflexivity].
Qed.

(** On a dict (distinct keys) the loop is a map over the values: same
    keys, same order. *)
Lemma store_all_distinct (items : list (string * V)) :
  NoDup (dict_keys items) -> store_all f items [] = map_values f items.
Proof.
  intros Hnd. rewrite store_all_fresh; [reflexivity | exact Hnd].
Qed.
End store_all_facts.

Lemma map_values_fixed {V : Type} (f : V -> V) (items : list (string * V)) :
  (forall k v, In (k, v) items -> f v = v) -> map_values f items = items.
Proof.
  intros Hf. unfold map_values. rewrite <- (map_id items) at 2.
  apply map_ext_in. intros [k v] Hin. simpl. rewrite (Hf k v Hin). reflexivity.
Qed.

Lemma dict_get_map_values {V W : Type} (f : V -> W)
    (items : list (string * V)) (k : string) :
  dict_get (map_values f items) k = option_map f (dict_get items k).
Proof.
  induction items as [|[k0 v0] rest IH]; simpl; [reflexivity|].
  destruct (String.eqb k0 k); [reflexivity | exact IH].
Qed.

(** ** [clean_document] *)

Import CollectionLoader.

Lemma clean_document_dict (items : list (string * value)) :
  clean_document (VDict items) = VDict (store_all clean_value items []).
Proof.
  simpl. f_equal. unfold store_all. generalize (@nil (string * value)).
  induction items as [|[k v] rest IH]; simpl; intros output; [reflexivity|].
  rewrite IH. f_equal. destruct v; reflexivity.
Qed.

Lemma clean_document_not_dict (v : value) :
  is_dict v = false -> clean_document v = v.
Proof. destruct v; simpl; intros H; try reflexivity. discriminate. Qed.

Lemma clean_value_other (v : value) :
  is_other_kind v = true -> clean_value v = v.
Proof. destruct v; simpl; intros H; try reflexivity; discriminate. Qed.

Lemma wf_value_dict (items : list (string * value)) :
  wf_value (VDict items) = true ->
  NoDup (dict_keys items) /\ forall k v, In (k, v) items -> wf_value v = true.
Proof.
  simpl. rewrite andb_true_iff, distinct_NoDup, forallb_forall.
  intros [Hnd Hall]. split; [exact Hnd|].
  intros k v Hin. exact (Hall (k, v) Hin).
Qed.

Lemma wf_value_list (elems : list value) :
  wf_value (VList elems) = true -> forall v, In v elems -> wf_value v = true.
Proof. simpl. rewrite forallb_forall. auto. Qed.

Lemma no_special_dict (items : list (string * value)) :
  has_special (VDict items) = false ->
  forall k v, In (k, v) items -> has_special v = false.
Proof.
  simpl. intros H k v Hin.
  destruct (has_special v) eqn:E; [|reflexivity].
  rewrite <- H. symmetry. apply existsb_exists. exists (k, v). auto.
Qed.

Lemma no_special_list (elems : list value) :
  has_special (VList elems) = false ->
  forall v, In v elems -> has_special v = false.
Proof.
  simpl. intros H v Hin.
  destruct (has_special v) eqn:E; [|reflexivity].
  rewrite <- H. symmetry. apply existsb_exists. exists v. auto.
Qed.

(** On a dict, [clean_document] keeps the keys and their order and stores
    [clean_value] of each value. *)
Lemma clean_document_wf_dict (items : list (string * value)) :
  NoDup (dict_keys items) ->
  clean_document (VDict items) = VDict (map_values clean_value items).
Proof.
  intros Hnd. rewrite clean_document_dict, store_all_distinct by exact Hnd.
  reflexivity.
Qed.

Lemma clean_fixed (v : value) :
  wf_value v = true -> has_special v = false ->
  clean_value v = v /\ clean_document v = v.
Proof.
  induction v as [| | | | | | |items IH|elems IH| |] using value_ind;
    intros Hwf Hns; try (split; reflexivity); try discriminate.
  - assert (clean_document (VDict items) = VDict items) as E.
    { destruct (wf_value_dict _ Hwf) as [Hnd Hall].
      rewrite clean_document_wf_dict by exact Hnd. f_equal.
      apply map_values_fixed. intros k v Hin.
      apply (IH k v Hin); [exact (Hall k v Hin)|].
      exact (no_special_dict _ Hns k v Hin). }
    split; exact E.
  - split; [|reflexivity]. simpl. f_equal.
    rewrite <- (map_id elems) at 2. apply map_ext_in. intros v Hin.
    apply (IH v Hin); [exact (wf_value_list _ Hwf v Hin)|].
    exact (no_special_list _ Hns v Hin).
Qed.

Lemma clean_idempotent (v : value) :
  clean_value (clean_value v) = clean_value v /\
  clean_document (clean_document v) = clean_document v.
Proof.
  induction v as [| | | | | | |items IH|elems IH| |] using value_ind;
    try (split; reflexivity).
  - assert (clean_document (clean_document (VDict items)) =
            clean_document (VDict items)) as E.
    { rewrite (clean_document_dict items).
      set (output := store_all clean_value items []).
      assert (NoDup (dict_keys output)) as Hnd.
      { apply store_all_NoDup. constructor. }
      rewrite clean_document_wf_dict by exact Hnd. f_equal.
      apply map_values_fixed. intros k w Hin.
      destruct (store_all_In _ _ _ _ _ Hin) as [[]|[v [Hv ->]]].
      apply (IH k v Hv). }
    split; [|exact E].
    change (clean_value (VDict items)) with (clean_document (VDict items)).
    rewrite clean_document_dict in *. exact E.
  - split; [|reflexivity]. simpl. f_equal. rewrite map_map.
    apply map_ext_in. intros v Hin. apply (IH v Hin).
Qed.

(** ** Chunking *)

Lemma islice_shape (g : TCursor) (n : nat) :
  islice g n =
  (map CollectionLoader.clean_document (firstn n g), skipn n g).
Proof.
  revert g; induction n as [|k IH]; intros [|d g]; simpl; try reflexivity.
  rewrite IH. reflexivity.
Qed.

Lemma CHUNK_SIZE_is : Z.of_nat CHUNK_SIZE = 10000%Z.
Proof. vm_compute. reflexivity. Qed.
Opaque CHUNK_SIZE.

Lemma CHUNK_SIZE_pos : 0 < CHUNK_SIZE.
Proof. pose proof CHUNK_SIZE_is. lia. Qed.

Lemma yield_slices_step (g : TCursor) :
  yield_slices g =
  match islice g CHUNK_SIZE with
  | ([], _) => []
  | (docs_slice, rest) => docs_slice :: yield_slices rest
  end.
Proof.
  simp yield_slices. unfold inspect.
  generalize (@eq_refl _ (islice g CHUNK_SIZE)).
  generalize (islice g CHUNK_SIZE) at 2 4 5.
  intros [[|d docs] rest] E; reflexivity.
Qed.

Lemma yield_slices_nil : yield_slices [] = [].
Proof.
  rewrite yield_slices_step, islice_shape, firstn_nil. reflexivity.
Qed.

Lemma yield_slices_cons (d : value) (g : TCursor) :
  yield_slices (d :: g) =
  map clean_document (firstn CHUNK_SIZE (d :: g)) ::
  yield_slices (skipn CHUNK_SIZE (d :: g)).
Proof.
  rewrite yield_slices_step, islice_shape.
  pose proof CHUNK_SIZE_pos as Hpos.
  destruct CHUNK_SIZE as [|k]; [lia|]. reflexivity.
Qed.

(** Induction along the loop: from a cursor to what is left of it after
    one slice. *)
Lemma slices_ind (P : TCursor -> Prop) :
  P [] ->
  (forall d g, P (skipn CHUNK_SIZE (d :: g)) -> P (d :: g)) ->
  forall g, P g.
Proof.
  intros Hnil Hcons g.
  remember (List.length g) as n eqn:Hn. revert g Hn.
  induction n as [n IH] using lt_wf_ind. intros [|d g] Hn; [exact Hnil|].
  apply Hcons. apply (IH (List.length (skipn CHUNK_SIZE (d :: g)))); [|reflexivity].
  rewrite length_skipn. pose proof CHUNK_SIZE_pos. cbn [List.length] in *. lia.
Qed.

Lemma yield_slices_concat (g : TCursor) :
  concat (yield_slices g) = map clean_document g.
Proof.
  induction g as [|d g IH] using slices_ind.
  - rewrite yield_slices_nil. reflexivity.
  - rewrite yield_slices_cons. simpl concat. rewrite IH, <- map_app.
    rewrite firstn_skipn. reflexivity.
Qed.

Lemma yield_slices_bounds (g : TCursor) :
  Forall (fun c => 0 < List.length c <= CHUNK_SIZE) (yield_slices g).
Proof.
  induction g as [|d g IH] using slices_ind.
  - rewrite yield_slices_nil. constructor.
  - rewrite yield_slices_cons. constructor; [|exact IH].
    rewrite length_map, length_firstn. pose proof CHUNK_SIZE_pos.
    cbn [List.length]. lia.
Qed.

Lemma yield_slices_count (g : TCursor) :
  List.length (yield_slices g) = (List.length g + CHUNK_SIZE - 1) / CHUNK_SIZE.
Proof.
  pose proof CHUNK_SIZE_pos as Hpos.
  induction g as [|d g IH] using slices_ind.
  - rewrite yield_slices_nil. simpl. symmetry. apply Nat.div_small. lia.
  - rewrite yield_slices_cons. simpl List.length at 1. rewrite IH.
    rewrite length_skipn.
    set (n := List.length (d :: g)).
    assert (0 < n) as Hn by (subst n; cbn [List.length]; lia).
    destruct (Nat.le_gt_cases n CHUNK_SIZE) as [Hle|Hgt].
    + replace (n - CHUNK_SIZE + CHUNK_SIZE - 1) with (CHUNK_SIZE - 1) by lia.
      rewrite (Nat.div_small (CHUNK_SIZE - 1)) by lia.
      apply (Nat.div_unique _ _ 1 (n - 1)); lia.
    + replace (n - CHUNK_SIZE + CHUNK_SIZE - 1) with (n - 1) by lia.
      replace (n + CHUNK_SIZE - 1) with (n - 1 + 1 * CHUNK_SIZE) by lia.
      rewrite Nat.div_add by lia. lia.
Qed.

(** Every chunk but the last is full. *)
Lemma yield_slices_full (g : TCursor) :
  forall i c,
    nth_error (yield_slices g) i = Some c ->
    S i < List.length (yield_slices g) ->
    List.length c = CHUNK_SIZE.
Proof.
  induction g as [|d g IH] using slices_ind; intros i c.
  - rewrite yield_slices_nil. simpl. lia.
  - rewrite yield_slices_cons. destruct i as [|i]; simpl.
    + intros E Hlen. injection E as <-.
      destruct (skipn CHUNK_SIZE (d :: g)) as [|x r] eqn:Hs.
      { rewrite yield_slices_nil in Hlen. simpl in Hlen. lia. }
      assert (List.length (skipn CHUNK_SIZE (d :: g)) > 0) as Hpos
        by (rewrite Hs; simpl; lia).
      rewrite length_skipn in Hpos.
      rewrite length_map, length_firstn. lia.
    + intros E Hlen. apply (IH i c E). lia.
Qed.

(** ** [make_query] *)

Lemma fires_functional incremental b f b' f' :
  fires incremental b f -> fires incremental b' f' -> b' = b /\ f' = f.
Proof.
  intros H H'. destruct H; inversion H'; subst;
    try (split; reflexivity); congruence.
Qed.

Lemma filter_op_fires client collection incremental :
  exists b f,
    fires incremental b f /\
    filter_op (__init__ client collection incremental) = Ok f.
Proof.
  destruct incremental as [inc|]; simpl.
  - unfold filter_op. simpl.
    destruct (truthy (Incremental.last_value inc)) eqn:Ht; simpl.
    + destruct (Incremental.last_value_func inc) as [| |name] eqn:Hf; simpl.
      * eexists _, _. split; [apply fires_max; assumption | reflexivity].
      * eexists _, _. split; [apply fires_min; assumption | reflexivity].
      * eexists _, _. split; [eapply fires_custom; eassumption | reflexivity].
    + eexists _, _. split; [apply fires_falsy_watermark; assumption | reflexivity].
  - eexists _, _. split; [apply fires_no_cursor | reflexivity].
Qed.

(** A loader built by [__init__] never reads a missing attribute. *)
Lemma make_query_ok client collection incremental :
  exists f,
    filter_op (__init__ client collection incremental) = Ok f /\
    make_query (__init__ client collection incremental) =
    Ok (find collection f).
Proof.
  destruct (filter_op_fires client collection incremental) as [b [f [_ Hf]]].
  exists f. split; [exact Hf|]. unfold make_query. rewrite Hf. simpl.
  destruct incremental; reflexivity.
Qed.

(** ** [collection_documents] *)

Lemma collection_documents_eq client collection incremental docs :
  make_query (__init__ client collection incremental) = Ok docs ->
  collection_documents client collection incremental = Ok (yield_slices docs).
Proof.
  intros Hq. unfold collection_documents, load_documents. rewrite Hq.
  reflexivity.
Qed.

Lemma len_chunk_bounds (docs : TCursor) :
  forall c, In c (yield_slices docs) -> (0 < len c <= 10000)%Z.
Proof.
  intros c Hin. pose proof (yield_slices_bounds docs) as Hb.
  rewrite Forall_forall in Hb. specialize (Hb c Hin).
  pose proof CHUNK_SIZE_is. unfold len. lia.
Qed.

Lemma len_chunk_count (docs : TCursor) :
  len (yield_slices docs) = ((len docs + 9999) / 10000)%Z.
Proof.
  unfold len. rewrite yield_slices_count, Nat2Z.inj_div.
  pose proof CHUNK_SIZE_is as HC. pose proof CHUNK_SIZE_pos.
  rewrite HC. f_equal. lia.
Qed.

(** * The claims *)

(** ** Sanitising documents *)

(** C1, at a document whose field [refs] is a list holding an [ObjectId]:
    the identifier in the list comes out of [clean_document] as it went in,
    so the output still holds one of the two special kinds and is not JSON
    serializable, while the same identifier stored directly under a key is
    turned into its text.  A list inside a list is likewise returned whole,
    with the identifiers and decimals of the dicts in it. *)
Theorem clean_document_leaves_id_in_list :
  wf_value refs_document = true /\
  clean_document refs_document =
    VDict [("_id", VStr "507f1f77bcf86cd799439011");
           ("refs", VList [VObjectId sample_oid])] /\
  has_special (clean_document refs_document) = true /\
  clean_document nested_list_document = nested_list_document /\
  has_special (clean_document nested_list_document) = true.
Proof. vm_compute. repeat split. Qed.

(** C2: the value stored for a field holding a list is the list of
    [clean_document] of its elements, in order; an [ObjectId] or a
    [Decimal128] that is itself an element of the list is returned by
    [clean_document] through the test for non-dict input and so stands in
    the output list, at the same index, unconverted. *)
Theorem clean_document_list_field items key elems :
  distinct (dict_keys items) = true ->
  dict_get items key = Some (VList elems) ->
  exists output,
    clean_document (VDict items) = VDict output /\
    dict_get output key = Some (VList (map clean_document elems)) /\
    (forall o, clean_document (VObjectId o) = VObjectId o) /\
    (forall d, clean_document (VDecimal128 d) = VDecimal128 d) /\
    (forall i v,
        nth_error elems i = Some v ->
        (exists o, v = VObjectId o) \/ (exists d, v = VDecimal128 d) ->
        nth_error (map clean_document elems) i = Some v).
Proof.
  intros Hd Hget. apply distinct_NoDup in Hd.
  exists (map_values clean_value items).
  split; [apply clean_document_wf_dict; exact Hd|].
  split; [rewrite dict_get_map_values, Hget; reflexivity|].
  split; [reflexivity|]. split; [reflexivity|].
  intros i v Hi Hv. rewrite nth_error_map, Hi. simpl.
  destruct Hv as [[o ->]|[d ->]]; reflexivity.
Qed.

Lemma clean_document_list_field_witness :
  exists output,
    clean_document refs_document = VDict output /\
    dict_get output "refs" = Some (VList [VObjectId sample_oid]).
Proof.
  destruct (clean_document_list_field
              [("_id", VObjectId sample_oid);
               ("refs", VList [VObjectId sample_oid])]
              "refs" [VObjectId sample_oid] eq_refl eq_refl)
    as [output [H1 [H2 _]]].
  exists output. split; [exact H1 | exact H2].
Defined.

(** C6: on a document in which neither an [ObjectId] nor a [Decimal128]
    occurs at any depth, [clean_document] is the identity: the output has
    the same keys in the same order, the same values and the same
    sequences. *)
Theorem clean_document_identity document :
  wf_value document = true ->
  has_special document = false ->
  clean_document document = document.
Proof.
  intros Hwf Hns. exact (proj2 (clean_fixed document Hwf Hns)).
Qed.

Lemma clean_document_identity_witness :
  clean_document plain_document = plain_document.
Proof.
  exact (clean_document_identity plain_document eq_refl eq_refl).
Defined.

(** C7: [clean_document] is idempotent: cleaning a cleaned document gives
    the cleaned document again. *)
Theorem clean_document_idempotent document :
  clean_document (clean_document document) = clean_document document.
Proof. exact (proj2 (clean_idempotent document)). Qed.

(** C8, at a document whose field [rows] is a list of lists of dicts: the
    field [price] of the inner dict holds a [Decimal128] and still holds it
    after [clean_document], which returns the inner list whole, so that
    field is not the decimal number the claim promises.  The same field is
    converted to its [Decimal] when its dict is itself an element of
    [rows], and when it is a key of the document. *)
Theorem clean_document_leaves_decimal_in_nested_list :
  wf_value decimal_rows_document = true /\
  clean_document decimal_rows_document =
    VDict [("rows",
            VList [VList [VDict [("price", VDecimal128 sample_price)]]])] /\
  has_special (clean_document decimal_rows_document) = true /\
  clean_document
    (VDict [("rows", VList [VDict [("price", VDecimal128 sample_price)]])]) =
    VDict [("rows",
            VList [VDict [("price", VDecimal (to_decimal sample_price))]])] /\
  clean_document priced_document =
    VDict [("sku", VStr "A-1");
           ("price", VDecimal (to_decimal sample_price))].
Proof. vm_compute. repeat split. Qed.

(** C9: [clean_document] is a total function, it has no failing case; a
    value under a key that is neither a dict, a list, a [Decimal128] nor an
    [ObjectId] (an object of an unknown class included) is stored in the
    output under the same key unchanged, no key of the input is dropped,
    and input that is not a dict is returned unchanged. *)
Theorem clean_document_passes_other_kinds items key v :
  distinct (dict_keys items) = true ->
  dict_get items key = Some v ->
  is_other_kind v = true ->
  exists output,
    clean_document (VDict items) = VDict output /\
    dict_get output key = Some v /\
    dict_keys output = dict_keys items /\
    (forall w, is_dict w = false -> clean_document w = w).
Proof.
  intros Hd Hget Hv. apply distinct_NoDup in Hd.
  exists (map_values clean_value items).
  split; [apply clean_document_wf_dict; exact Hd|].
  split.
  { rewrite dict_get_map_values, Hget. simpl.
    rewrite (clean_value_other v Hv). reflexivity. }
  split; [apply dict_keys_map_values|].
  exact clean_document_not_dict.
Qed.

Lemma clean_document_passes_other_kinds_witness :
  exists output,
    clean_document (VDict [("blob", sample_opaque)]) = VDict output /\
    dict_get output "blob" = Some sample_opaque.
Proof.
  destruct (clean_document_passes_other_kinds
              [("blob", sample_opaque)] "blob" sample_opaque
              eq_refl eq_refl eq_refl)
    as [output [H1 [H2 _]]].
  exists output. split; [exact H1 | exact H2].
Defined.

(** ** Building the filter *)

(** C3 as stated fails at a cursor with policy max whose watermark is the
    integer 0: the watermark is present, so the stated rule gives the
    [$gte] filter, but [make_query] builds the empty filter. *)
Lemma make_query_zero_watermark_select_all :
  has_watermark zero_watermark = true /\
  specified_filter (Some zero_watermark) =
    VDict [("seq", VDict [("$gte", VInt 0)])] /\
  filter_op (__init__ sample_client empty_collection (Some zero_watermark)) =
    Ok (VDict []) /\
  filter_op (__init__ sample_client empty_collection (Some zero_watermark)) <>
    Ok (specified_filter (Some zero_watermark)).
Proof.
  repeat split. vm_compute. intros E. discriminate E.
Qed.

(** C3, amended: on every invocation of [make_query] exactly one of four
    branches fires.  With no cursor, or with a cursor whose watermark is
    absent or otherwise falsy, the filter is empty; else with policy max it
    is [{cursor_field: {"$gte": watermark}}]; else with policy min it is
    [{cursor_field: {"$lt": watermark}}]; else (custom policy) it is empty.
    The cursor returned is [collection.find] of that filter. *)
Theorem make_query_one_branch client collection incremental :
  exists b f,
    fires incremental b f /\
    (forall b' f', fires incremental b' f' -> b' = b /\ f' = f) /\
    filter_op (__init__ client collection incremental) = Ok f /\
    make_query (__init__ client collection incremental) =
      Ok (find collection f).
Proof.
  destruct (filter_op_fires client collection incremental) as [b [f [Hb Hf]]].
  exists b, f. split; [exact Hb|].
  split; [intros b' f' Hb'; exact (fires_functional _ _ _ _ _ Hb Hb')|].
  split; [exact Hf|].
  destruct (make_query_ok client collection incremental) as [f0 [Hf0 Hq]].
  rewrite Hf in Hf0. injection Hf0 as <-. exact Hq.
Qed.

(** C4: a cursor whose watermark is falsy ([0], the empty string, [False],
    ...) makes [make_query] build the empty filter, whatever the policy,
    the same filter as with the watermark absent ([None]); and a filter
    with a condition on a field is only built from a truthy watermark. *)
Theorem make_query_falsy_watermark client collection inc :
  (truthy (Incremental.last_value inc) = false ->
   filter_op (__init__ client collection (Some inc)) = Ok (VDict []) /\
   filter_op (__init__ client collection (Some inc)) =
     filter_op (__init__ client collection
                  (Some (Incremental.mk (Incremental.cursor_path inc) VNone
                           (Incremental.last_value_func inc))))) /\
  (forall field condition,
      filter_op (__init__ client collection (Some inc)) =
        Ok (VDict [(field, condition)]) ->
      truthy (Incremental.last_value inc) = true) /\
  (forall policy field,
      filter_op (__init__ client collection
                   (Some (Incremental.mk field (VInt 0) policy))) =
        Ok (VDict []) /\
      filter_op (__init__ client collection
                   (Some (Incremental.mk field (VStr "") policy))) =
        Ok (VDict []) /\
      filter_op (__init__ client collection
                   (Some (Incremental.mk field (VBool false) policy))) =
        Ok (VDict [])).
Proof.
  split; [|split].
  - intros Hfalsy. unfold filter_op. simpl. rewrite Hfalsy. simpl.
    split; reflexivity.
  - intros field condition. unfold filter_op. simpl.
    destruct (truthy (Incremental.last_value inc)); simpl;
      [reflexivity | discriminate].
  - intros policy field. repeat split.
Qed.

Lemma make_query_falsy_watermark_witness :
  filter_op (__init__ sample_client empty_collection (Some zero_watermark)) =
    Ok (VDict []).
Proof.
  exact (proj1 (proj1 (make_query_falsy_watermark
                         sample_client empty_collection zero_watermark)
                  eq_refl)).
Defined.

(** ** Chunked extraction *)

(** C5: when the query returns [N > 10000] documents, the stream yields
    [ceil(N / 10000)] chunks, each one but the last of exactly 10000
    documents and every one of at most 10000, and the chunks concatenated
    in order are the cleaned documents in the cursor's order; with no
    incremental cursor the documents are those of [find({})]; and with
    [N = 25000] the chunk sizes are 10000, 10000, 5000. *)
Theorem collection_documents_chunks client collection incremental docs :
  make_query (__init__ client collection incremental) = Ok docs ->
  (10000 < len docs)%Z ->
  exists chunks,
    collection_documents client collection incremental = Ok chunks /\
    len chunks = ((len docs + 9999) / 10000)%Z /\
    ((len chunks - 1) * 10000 < len docs <= len chunks * 10000)%Z /\
    (forall i c,
        nth_error chunks i = Some c ->
        (Z.of_nat i + 1 < len chunks)%Z -> len c = 10000%Z) /\
    (forall c, In c chunks -> (0 < len c <= 10000)%Z) /\
    concat chunks = map clean_document docs /\
    (incremental = None -> docs = find collection (VDict [])) /\
    (len docs = 25000%Z -> map len chunks = [10000; 10000; 5000]%Z).
Proof.
  intros Hq HN. exists (yield_slices docs).
  pose proof (len_chunk_count docs) as Hcount.
  assert (forall i c,
             nth_error (yield_slices docs) i = Some c ->
             (Z.of_nat i + 1 < len (yield_slices docs))%Z ->
             len c = 10000%Z) as Hfull.
  { intros i c Hi Hlt. unfold len in *. rewrite <- CHUNK_SIZE_is. f_equal.
    apply (yield_slices_full docs i c Hi). lia. }
  split; [apply collection_documents_eq; exact Hq|].
  split; [exact Hcount|].
  split.
  { rewrite Hcount.
    pose proof (Z.div_mod (len docs + 9999) 10000 ltac:(lia)).
    pose proof (Z.mod_pos_bound (len docs + 9999) 10000 ltac:(lia)). lia. }
  split; [exact Hfull|].
  split; [apply len_chunk_bounds|].
  split; [apply yield_slices_concat|].
  split.
  { intros ->. simpl in Hq. injection Hq as <-. reflexivity. }
  intros H25. rewrite H25 in Hcount. change ((25000 + 9999) / 10000)%Z with 3%Z in Hcount.
  pose proof (yield_slices_concat docs) as Hcat.
  apply (f_equal (@List.length value)) in Hcat. rewrite length_map in Hcat.
  destruct (yield_slices docs) as [|c0 [|c1 [|c2 [|c3 r]]]];
    unfold len in Hcount; simpl in Hcount; try lia.
  pose proof (Hfull 0%nat c0 eq_refl) as H0.
  pose proof (Hfull 1%nat c1 eq_refl) as H1.
  unfold len in H0, H1, H25 |- *. simpl in H0, H1.
  specialize (H0 ltac:(lia)). specialize (H1 ltac:(lia)).
  simpl in Hcat. rewrite !length_app in Hcat. simpl in Hcat.
  simpl. repeat f_equal; lia.
Qed.

Lemma collection_documents_chunks_witness :
  exists chunks,
    collection_documents sample_client large_collection None = Ok chunks /\
    map len chunks = [10000; 10000; 5000]%Z.
Proof.
  assert (10000 < len (repeat refs_document 25000))%Z as HN
    by (vm_compute; reflexivity).
  destruct (collection_documents_chunks sample_client large_collection None
              (repeat refs_document 25000) eq_refl HN)
    as [chunks [Hc [_ [_ [_ [_ [_ [_ H25]]]]]]]].
  exists chunks. split; [exact Hc|]. apply H25. vm_compute. reflexivity.
Defined.

(** C10: every chunk that [collection_documents] yields holds at least one
    and at most 10000 documents; when the query matches no document, no
    chunk is yielded. *)
Theorem collection_documents_no_empty_chunk client collection incremental :
  exists docs chunks,
    make_query (__init__ client collection incremental) = Ok docs /\
    collection_documents client collection incremental = Ok chunks /\
    (forall c, In c chunks -> (0 < len c <= 10000)%Z) /\
    (docs = [] -> chunks = []).
Proof.
  destruct (make_query_ok client collection incremental) as [f [_ Hq]].
  exists (find collection f), (yield_slices (find collection f)).
  split; [exact Hq|].
  split; [apply collection_documents_eq; exact Hq|].
  split; [apply len_chunk_bounds|].
  intros ->. apply yield_slices_nil.
Qed.

Lemma collection_documents_no_empty_chunk_witness :
  collection_documents sample_client empty_collection None = Ok [].
Proof.
  destruct (collection_documents_no_empty_chunk
              sample_client empty_collection None)
    as [docs [chunks [Hq [Hc [_ Hnone]]]]].
  simpl in Hq. injection Hq as <-. rewrite Hc, (Hnone eq_refl). reflexivity.
Defined.

(** * Further properties of the code *)

(** ** [clean_document], field by field *)

Lemma clean_value_not_dict (w : value) :
  is_dict w = false -> is_dict (clean_value w) = false.
Proof. destruct w; simpl; intros H; try reflexivity; discriminate. Qed.

Lemma dict_path_not_dict (w : value) (k : string) (rest : list string) :
  is_dict w = false -> dict_path w (k :: rest) = None.
Proof. destruct w; simpl; intros H; try reflexivity; discriminate. Qed.

Lemma dict_get_wf (items : list (string * value)) (k : string) (w : value) :
  wf_value (VDict items) = true -> dict_get items k = Some w ->
  wf_value w = true.
Proof.
  intros Hwf Hget. destruct (wf_value_dict _ Hwf) as [Hnd Hall].
  apply (Hall k w). apply dict_get_In; assumption.
Qed.

(** X1: in a well-formed document, what stands at the end of a non-empty
    path of keys stands in the cleaned document at the same path, converted
    as the loop of [clean_document] converts a field: an [ObjectId] as its
    text, a [Decimal128] as its [Decimal], a dict cleaned, a list with its
    elements cleaned, anything else as it is; a path that leads nowhere
    leads nowhere after cleaning. *)
Theorem clean_document_at_path document path :
  wf_value document = true ->
  path <> [] ->
  dict_path (clean_document document) path =
    option_map clean_value (dict_path document path) /\
  (forall o, dict_path document path = Some (VObjectId o) ->
     dict_path (clean_document document) path = Some (VStr (ObjectId_str o))) /\
  (forall d, dict_path document path = Some (VDecimal128 d) ->
     dict_path (clean_document document) path =
       Some (VDecimal (to_decimal d))) /\
  (dict_path document path = None ->
     dict_path (clean_document document) path = None).
Proof.
  intros Hwf Hpath.
  assert (dict_path (clean_document document) path =
          option_map clean_value (dict_path document path)) as Hmain.
  { revert document Hwf. induction path as [|k rest IH]; [contradiction|].
    intros document Hwf.
    destruct (is_dict document) eqn:Hd.
    - destruct document as [| | | | | | |items| | |]; try discriminate.
      destruct (wf_value_dict _ Hwf) as [Hnd _].
      rewrite clean_document_wf_dict by exact Hnd. simpl.
      rewrite dict_get_map_values.
      destruct (dict_get items k) as [w|] eqn:Hget; simpl; [|reflexivity].
      destruct rest as [|k2 r]; [reflexivity|].
      destruct (is_dict w) eqn:Hw.
      + destruct w as [| | | | | | |sub| | |]; try discriminate.
        change (clean_value (VDict sub)) with (clean_document (VDict sub)).
        apply IH; [discriminate|]. exact (dict_get_wf _ _ _ Hwf Hget).
      + rewrite (dict_path_not_dict w) by exact Hw.
        rewrite dict_path_not_dict; [reflexivity|].
        apply clean_value_not_dict. exact Hw.
    - rewrite clean_document_not_dict by exact Hd.
      rewrite dict_path_not_dict by exact Hd. reflexivity. }
  split; [exact Hmain|]. rewrite Hmain.
  split; [intros o ->; reflexivity|].
  split; [intros d ->; reflexivity|].
  intros ->. reflexivity.
Qed.

Lemma clean_document_at_path_witness :
  dict_path (clean_document nested_document) ["owner"; "id"] =
    Some (VStr "507f1f77bcf86cd799439011").
Proof.
  assert (["owner"; "id"] <> []) as Hne by discriminate.
  exact (proj1 (proj2 (clean_document_at_path nested_document
                         ["owner"; "id"] eq_refl Hne))
           sample_oid eq_refl).
Defined.

Lemma field_holds_special_dict (items : list (string * value)) :
  field_holds_special (VDict items) =
  existsb (fun kv => stored_special (snd kv)) items.
Proof.
  simpl. induction items as [|[k w] rest IH]; simpl; [reflexivity|].
  rewrite IH. destruct w; reflexivity.
Qed.

Lemma existsb_false {A : Type} (f : A -> bool) (l : list A) :
  (forall x, In x l -> f x = false) -> existsb f l = false.
Proof.
  intros H. destruct (existsb f l) eqn:E; [|reflexivity].
  apply existsb_exists in E. destruct E as [x [Hin Hx]].
  rewrite (H x Hin) in Hx. discriminate.
Qed.

Lemma clean_no_stored_special (v : value) :
  stored_special (clean_value v) = false /\
  field_holds_special (clean_document v) = false.
Proof.
  induction v as [| | | | | | |items IH|elems IH| |] using value_ind;
    try (split; reflexivity).
  - assert (field_holds_special (clean_document (VDict items)) = false) as E.
    { rewrite clean_document_dict, field_holds_special_dict.
      apply existsb_false. intros [k w] Hin. simpl.
      destruct (store_all_In _ _ _ _ _ Hin) as [[]|[v [Hv ->]]].
      apply (IH k v Hv). }
    split; [|exact E].
    change (clean_value (VDict items)) with (clean_document (VDict items)).
    rewrite clean_document_dict in *. exact E.
  - split; [|reflexivity]. simpl. apply existsb_false.
    intros w Hin. apply in_map_iff in Hin. destruct Hin as [v [<- Hv]].
    apply (IH v Hv).
Qed.

(** X2: whatever the input, in the output of [clean_document] no dict field
    holds an [ObjectId] or a [Decimal128] directly, neither in the document
    itself, nor in the dicts under its keys, nor in the dicts that are
    elements of its lists, at any depth of such nesting. *)
Theorem clean_document_fields_converted document :
  field_holds_special (clean_document document) = false.
Proof. exact (proj2 (clean_no_stored_special document)). Qed.

Lemma clean_special_origin (v : value) :
  (has_special (clean_value v) = true -> has_special v = true) /\
  (has_special (clean_document v) = true -> has_special v = true).
Proof.
  induction v as [| | | | | | |items IH|elems IH| |] using value_ind;
    try (split; intros H; try exact H; discriminate H).
  - assert (has_special (clean_document (VDict items)) = true ->
            has_special (VDict items) = true) as E.
    { rewrite clean_document_dict. simpl. intros H.
      apply existsb_exists in H. destruct H as [[k w] [Hin Hw]].
      destruct (store_all_In _ _ _ _ _ Hin) as [[]|[v [Hv ->]]].
      apply existsb_exists. exists (k, v). split; [exact Hv|].
      apply (proj1 (IH k v Hv)). exact Hw. }
    split; [|exact E].
    change (clean_value (VDict items)) with (clean_document (VDict items)).
    exact E.
  - split; [|intros H; exact H]. simpl. intros H.
    apply existsb_exists in H. destruct H as [w [Hin Hw]].
    apply in_map_iff in Hin. destruct Hin as [v [<- Hv]].
    apply existsb_exists. exists v. split; [exact Hv|].
    apply (proj2 (IH v Hv)). exact Hw.
Qed.

(** X3: [clean_document] never brings in an [ObjectId] or a [Decimal128]:
    if one occurs anywhere in the output, one occurred in the input. *)
Theorem clean_document_adds_no_special document :
  has_special (clean_document document) = true ->
  has_special document = true.
Proof. exact (proj2 (clean_special_origin document)). Qed.

Lemma clean_document_adds_no_special_witness :
  has_special refs_document = true.
Proof.
  apply clean_document_adds_no_special. vm_compute. reflexivity.
Defined.

(** ** [load_documents] under [islice] *)

(** X4: pulling [n] items from the generator of [load_documents] gives the
    first [n] documents of the cursor (all of them when fewer remain), each
    cleaned, in the cursor's order, and advances the cursor by exactly
    those documents; an exhausted generator gives nothing and stays
    exhausted. *)
Theorem islice_load_documents (g : TCursor) (n : nat) :
  exists docs rest,
    islice g n = (docs, rest) /\
    docs = map clean_document (firstn n g) /\
    rest = skipn n g /\
    List.length docs = Nat.min n (List.length g) /\
    map clean_document g = docs ++ map clean_document rest /\
    islice [] n = ([], []).
Proof.
  exists (map clean_document (firstn n g)), (skipn n g).
  split; [apply islice_shape|]. split; [reflexivity|]. split; [reflexivity|].
  split; [rewrite length_map; apply length_firstn|].
  split; [rewrite <- map_app, firstn_skipn; reflexivity|].
  rewrite islice_shape, firstn_nil, skipn_nil. reflexivity.
Qed.

(** ** [collection_documents], chunk by chunk *)

Lemma yield_slices_nth (i : nat) :
  forall g : TCursor,
    i * CHUNK_SIZE < List.length g ->
    nth_error (yield_slices g) i =
    Some (map clean_document (firstn CHUNK_SIZE (skipn (i * CHUNK_SIZE) g))).
Proof.
  induction i as [|i IH]; intros g Hlt.
  - destruct g as [|d g]; [cbn [List.length] in Hlt; lia|].
    rewrite yield_slices_cons. reflexivity.
  - destruct g as [|d g]; [cbn [List.length] in Hlt; lia|].
    rewrite yield_slices_cons. cbn [nth_error].
    replace (S i * CHUNK_SIZE) with (i * CHUNK_SIZE + CHUNK_SIZE) in * by lia.
    rewrite IH.
    + rewrite skipn_skipn. reflexivity.
    + rewrite length_skipn. lia.
Qed.

Lemma yield_slices_nth_none (i : nat) (g : TCursor) :
  List.length g <= i * CHUNK_SIZE -> nth_error (yield_slices g) i = None.
Proof.
  intros Hle. apply nth_error_None. rewrite yield_slices_count.
  pose proof CHUNK_SIZE_pos as Hpos.
  assert ((List.length g + CHUNK_SIZE - 1) / CHUNK_SIZE < S i); [|lia].
  apply Nat.Div0.div_lt_upper_bound. lia.
Qed.

(** X5: chunk number [i] (from 0) of [collection_documents] is the cleaned
    documents number [i * CHUNK_SIZE] up to, not including,
    [(i + 1) * CHUNK_SIZE] of the query result, as many of them as exist;
    there is no chunk [i] when the result has at most [i * CHUNK_SIZE]
    documents. *)
Theorem collection_documents_chunk_at client collection incremental docs i :
  make_query (__init__ client collection incremental) = Ok docs ->
  exists chunks,
    collection_documents client collection incremental = Ok chunks /\
    (i * CHUNK_SIZE < List.length docs ->
     nth_error chunks i =
       Some (map clean_document
               (firstn CHUNK_SIZE (skipn (i * CHUNK_SIZE) docs))) /\
     List.length (nth i chunks []) =
       Nat.min CHUNK_SIZE (List.length docs - i * CHUNK_SIZE)) /\
    (List.length docs <= i * CHUNK_SIZE -> nth_error chunks i = None).
Proof.
  intros Hq. exists (yield_slices docs).
  split; [apply collection_documents_eq; exact Hq|].
  split; [|apply yield_slices_nth_none].
  intros Hlt. pose proof (yield_slices_nth i docs Hlt) as Hnth.
  split; [exact Hnth|].
  rewrite (nth_error_nth _ _ _ Hnth), length_map, length_firstn, length_skipn.
  reflexivity.
Qed.

Lemma collection_documents_chunk_at_witness :
  exists chunks,
    collection_documents sample_client even_collection None = Ok chunks /\
    nth_error chunks 2 = None.
Proof.
  destruct (collection_documents_chunk_at sample_client even_collection None
              (repeat nested_document 20000) 2 eq_refl)
    as [chunks [Hc [_ Hnone]]].
  exists chunks. split; [exact Hc|]. apply Hnone.
  apply Nat.leb_le. vm_compute. reflexivity.
Defined.

(** X6: a query result of at least one and at most [CHUNK_SIZE] documents
    comes out as a single chunk, the list of the cleaned documents. *)
Theorem collection_documents_single_chunk client collection incremental docs :
  make_query (__init__ client collection incremental) = Ok docs ->
  0 < List.length docs <= CHUNK_SIZE ->
  collection_documents client collection incremental =
    Ok [map clean_document docs].
Proof.
  intros Hq [Hpos Hle]. rewrite (collection_documents_eq _ _ _ _ Hq).
  destruct docs as [|d g]; [cbn [List.length] in Hpos; lia|].
  rewrite yield_slices_cons, firstn_all2, skipn_all2 by exact Hle.
  rewrite yield_slices_nil. reflexivity.
Qed.

Lemma collection_documents_single_chunk_witness :
  collection_documents sample_client small_collection None =
    Ok [map clean_document [refs_document; nested_document; plain_document]].
Proof.
  apply collection_documents_single_chunk; [reflexivity|].
  split; apply Nat.leb_le; vm_compute; reflexivity.
Defined.

(** X7: when the number of documents of the query result is [k] times
    [CHUNK_SIZE], exactly [k] chunks are yielded and each of them is full:
    no short and no empty chunk follows the last full one. *)
Theorem collection_documents_exact_multiple client collection incremental
    docs k :
  make_query (__init__ client collection incremental) = Ok docs ->
  List.length docs = k * CHUNK_SIZE ->
  exists chunks,
    collection_documents client collection incremental = Ok chunks /\
    List.length chunks = k /\
    Forall (fun c => List.length c = CHUNK_SIZE) chunks.
Proof.
  intros Hq Hlen. exists (yield_slices docs).
  pose proof CHUNK_SIZE_pos as Hpos.
  assert (List.length (yield_slices docs) = k) as Hk.
  { rewrite yield_slices_count, Hlen.
    replace (k * CHUNK_SIZE + CHUNK_SIZE - 1)
      with (CHUNK_SIZE - 1 + k * CHUNK_SIZE) by lia.
    rewrite Nat.div_add by lia. rewrite Nat.div_small by lia. lia. }
  split; [apply collection_documents_eq; exact Hq|].
  split; [exact Hk|].
  apply Forall_forall. intros c Hin.
  apply In_nth_error in Hin. destruct Hin as [i Hi].
  assert (i < k) as Hik.
  { rewrite <- Hk. apply nth_error_Some. rewrite Hi. discriminate. }
  assert (i * CHUNK_SIZE + CHUNK_SIZE <= k * CHUNK_SIZE) as Hb by nia.
  rewrite yield_slices_nth in Hi by lia. injection Hi as <-.
  rewrite length_map, length_firstn, length_skipn. lia.
Qed.

Lemma collection_documents_exact_multiple_witness :
  exists chunks,
    collection_documents sample_client even_collection None = Ok chunks /\
    List.length chunks = 2.
Proof.
  assert (List.length (repeat nested_document 20000) = 2 * CHUNK_SIZE) as Hlen
    by (apply Nat.eqb_eq; vm_compute; reflexivity).
  destruct (collection_documents_exact_multiple sample_client even_collection
              None (repeat nested_document 20000) 2 eq_refl Hlen)
    as [chunks [Hc [Hk _]]].
  exists chunks. split; [exact Hc | exact Hk].
Defined.

(** X8: the chunks of a result do not depend on the documents that follow a
    run of full chunks: when [before] holds a multiple of [CHUNK_SIZE]
    documents, the chunks of [before ++ after] are the chunks of [before]
    followed by the chunks of [after]. *)
Theorem yield_slices_app (k : nat) :
  forall before after : TCursor,
    List.length before = k * CHUNK_SIZE ->
    yield_slices (before ++ after) =
    yield_slices before ++ yield_slices after.
Proof.
  pose proof CHUNK_SIZE_pos as Hpos.
  induction k as [|k IH]; intros before after Hlen.
  - destruct before as [|d g]; [|cbn [List.length] in Hlen; lia].
    rewrite yield_slices_nil. reflexivity.
  - destruct before as [|d g]; [cbn [List.length] in Hlen; lia|].
    assert (CHUNK_SIZE <= List.length (d :: g)) as Hge by lia.
    change ((d :: g) ++ after) with (d :: (g ++ after)).
    rewrite (yield_slices_cons d (g ++ after)), (yield_slices_cons d g).
    change (d :: (g ++ after)) with ((d :: g) ++ after).
    rewrite firstn_app, skipn_app.
    replace (CHUNK_SIZE - List.length (d :: g)) with 0 by lia.
    rewrite firstn_0, skipn_O, app_nil_r.
    rewrite IH by (rewrite length_skipn; lia). reflexivity.
Qed.

Lemma yield_slices_app_witness :
  yield_slices (repeat nested_document 10000 ++ [plain_document]) =
  yield_slices (repeat nested_document 10000) ++ yield_slices [plain_document].
Proof.
  apply (yield_slices_app 1). apply Nat.eqb_eq. vm_compute. reflexivity.
Defined.


(** ** [__init__] and [make_query] *)

(** X10: on a loader built by [__init__], [make_query] never reads a missing
    attribute: although [__init__] leaves [cursor_field] unset when no
    cursor is given, the query and the whole of [collection_documents]
    return normally for every client, collection and cursor. *)
Theorem collection_documents_never_raises client collection incremental :
  exists f,
    filter_op (__init__ client collection incremental) = Ok f /\
    make_query (__init__ client collection incremental) =
      Ok (find collection f) /\
    collection_documents client collection incremental =
      Ok (yield_slices (find collection f)) /\
    (cursor_field (__init__ client collection incremental) = None <->
     incremental = None).
Proof.
  destruct (make_query_ok client collection incremental) as [f [Hf Hq]].
  exists f. split; [exact Hf|]. split; [exact Hq|].
  split; [apply collection_documents_eq; exact Hq|].
  destruct incremental; simpl; split; intros H; try reflexivity; discriminate.
Qed.

(** X11: a loader that has a cursor with a truthy watermark and policy max
    or min, but no [cursor_field] attribute, makes [make_query] fail with
    the attribute error for [cursor_field]. *)
Theorem make_query_missing_cursor_field self inc :
  incremental self = Some inc ->
  cursor_field self = None ->
  truthy (last_value self) = true ->
  Incremental.last_value_func inc = builtin_max \/
  Incremental.last_value_func inc = builtin_min ->
  make_query self = AttributeError "cursor_field".
Proof.
  intros Hinc Hfield Htruthy Hfunc.
  unfold make_query, filter_op, get_cursor_field.
  rewrite Hinc, Htruthy, Hfield. simpl.
  destruct Hfunc as [-> | ->]; reflexivity.
Qed.

Lemma make_query_missing_cursor_field_witness :
  make_query patched_loader = AttributeError "cursor_field".
Proof.
  apply (make_query_missing_cursor_field patched_loader
           (Incremental.mk "seq" (VInt 5) builtin_max));
    try reflexivity.
  left. reflexivity.
Defined.

(** X12: with a cursor whose watermark is falsy, or whose policy is neither
    max nor min, [collection_documents] yields what it yields with no
    cursor at all: the chunks of [find({})]. *)
Theorem collection_documents_unfiltered client collection inc :
  truthy (Incremental.last_value inc) = false \/
  (exists name, Incremental.last_value_func inc = other_function name) ->
  collection_documents client collection (Some inc) =
    collection_documents client collection None /\
  collection_documents client collection (Some inc) =
    Ok (yield_slices (find collection (VDict []))).
Proof.
  intros H.
  assert (make_query (__init__ client collection (Some inc)) =
          Ok (find collection (VDict []))) as Hq.
  { unfold make_query, filter_op. simpl.
    destruct (truthy (Incremental.last_value inc)) eqn:Ht; simpl;
      [|reflexivity].
    destruct H as [H|[name H]]; [discriminate|]. rewrite H. reflexivity. }
  rewrite (collection_documents_eq _ _ _ _ Hq).
  rewrite (collection_documents_eq client collection None
             (find collection (VDict [])) eq_refl).
  split; reflexivity.
Qed.

Lemma collection_documents_unfiltered_witness :
  collection_documents sample_client small_collection (Some zero_watermark) =
    collection_documents sample_client small_collection None.
Proof.
  apply collection_documents_unfiltered. left. reflexivity.
Defined.

Lemma map_values_setitem {V W : Type} (f : V -> W)
    (items : list (string * V)) (k : string) (v : V) :
  map_values f (dict_setitem items k v) =
  dict_setitem (map_values f items) k (f v).
Proof.
  unfold map_values.
  induction items as [|[k0 v0] rest IH]; simpl; [reflexivity|].
  destruct (String.eqb k0 k); simpl; [reflexivity|].
  rewrite IH. reflexivity.
Qed.

(** X13: cleaning commutes with storing a field: for a dict [d], cleaning
    [d] after [d[k] = v] gives the cleaned [d] with the converted [v]
    stored under [k], at the place [k] had or at the end when [k] is
    new. *)
Theorem clean_document_setitem items k v :
  distinct (dict_keys items) = true ->
  exists output,
    clean_document (VDict items) = VDict output /\
    clean_document (VDict (dict_setitem items k v)) =
      VDict (dict_setitem output k (clean_value v)).
Proof.
  intros Hd. apply distinct_NoDup in Hd.
  exists (map_values clean_value items).
  split; [apply clean_document_wf_dict; exact Hd|].
  rewrite clean_document_wf_dict by (apply dict_setitem_NoDup; exact Hd).
  rewrite map_values_setitem. reflexivity.
Qed.

Lemma clean_document_setitem_witness :
  clean_document
    (VDict (dict_setitem [("sku", VStr "A-1")] "owner" (VObjectId sample_oid))) =
  VDict [("sku", VStr "A-1"); ("owner", VStr "507f1f77bcf86cd799439011")].
Proof.
  destruct (clean_document_setitem [("sku", VStr "A-1")] "owner"
              (VObjectId sample_oid) eq_refl) as [output [H1 H2]].
  rewrite H2. injection H1 as <-. reflexivity.
Defined.
